(** * update-schedule-page.py: the literal-block patch script

    The script reads one file as text, rebinds [content] seven times with
    [content = content.replace(old, new)], writes [content] back and prints
    a banner.  This development embeds

    - Python's [str] operations the script relies on ([in], [find],
      [replace], [split]/[join] for the characterisation of [replace]);
    - the seven (anchor, replacement) literals, in the script's order;
    - the text-mode file operations [open(..., "r")] / [open(..., "w")]
      and [print], as explicit state passing over a world of one file and
      a standard output.

    A Python [str] is held as the Rocq [string] of its UTF-8 bytes: the
    file is opened with [encoding="utf-8"], and because UTF-8 is
    self-synchronising, substring search on code points and on the encoded
    bytes find the same occurrences. *)

From Stdlib Require Import Strings.String Strings.Ascii List Arith Lia Bool.
Import ListNotations.
Open Scope list_scope.
Open Scope string_scope.

(** ** Python [str] primitives *)

Module PyStr.

(** [s.startswith(p)] *)
Fixpoint startswith (s p : string) {struct p} : bool :=
  match p with
  | EmptyString => true
  | String a p' =>
      match s with
      | EmptyString => false
      | String b s' => Ascii.eqb a b && startswith s' p'
      end
  end.

(** [s[:n]] *)
Fixpoint take (n : nat) (s : string) : string :=
  match n, s with
  | S k, String c s' => String c (take k s')
  | _, _ => EmptyString
  end.

(** [s[n:]] *)
Fixpoint drop (n : nat) (s : string) : string :=
  match n, s with
  | S k, String _ s' => drop k s'
  | _, _ => s
  end.

(** [s.find(sub)]: index of the leftmost occurrence, [None] for Python's -1. *)
Fixpoint find (s sub : string) : option nat :=
  if startswith s sub then Some 0
  else match s with
       | EmptyString => None
       | String _ s' => option_map S (find s' sub)
       end.

(** [sub in s] *)
Definition contains (s sub : string) : bool :=
  match find s sub with
  | Some _ => true
  | None => false
  end.

(** [c in s] for a character [c] of one byte (an ASCII character): in
    UTF-8 such a byte is never part of the encoding of another character. *)
Fixpoint has_char (s : string) (c : ascii) : bool :=
  match s with
  | EmptyString => false
  | String a s' => Ascii.eqb a c || has_char s' c
  end.

(** The byte is one of the ASCII range, a character on its own. *)
Definition is_ascii (c : ascii) : bool :=
  match c with
  | Ascii _ _ _ _ _ _ _ b7 => negb b7
  end.

(** The byte continues the UTF-8 encoding of a character begun before it
    (bit pattern 10xxxxxx). *)
Definition is_continuation (c : ascii) : bool :=
  match c with
  | Ascii _ _ _ _ _ _ b6 b7 => b7 && negb b6
  end.

(** Left-to-right scan of [s.replace(old, new)] for a non-empty [old].
    [skip] counts the characters of the occurrence just matched that are
    still to be passed over, so occurrences never overlap. *)
Fixpoint replace_scan (skip : nat) (s old new : string) : string :=
  match s with
  | EmptyString => EmptyString
  | String c s' =>
      match skip with
      | S k => replace_scan k s' old new
      | O =>
          if startswith s old
          then new ++ replace_scan (String.length old - 1) s' old new
          else String c (replace_scan 0 s' old new)
      end
  end.

(** With an empty [old] Python puts [new] before every character and at
    the end: ["abc".replace("", "-") == "-a-b-c-"].  A character is one
    code point, so nothing is put before a continuation byte. *)
Fixpoint interleave (s new : string) : string :=
  match s with
  | EmptyString => new
  | String c s' =>
      if is_continuation c
      then String c (interleave s' new)
      else new ++ String c (interleave s' new)
  end.

(** [s.replace(old, new)], every occurrence (no [count] argument). *)
Definition replace (s old new : string) : string :=
  match old with
  | EmptyString => interleave s new
  | String _ _ => replace_scan 0 s old new
  end.

(** [s.replace(old, new, 1)]: the reading of a step in which only the
    leftmost occurrence is rewritten.  The script never passes a count;
    this definition exists to be compared with [replace]. *)
Definition replace_first (s old new : string) : string :=
  match find s old with
  | Some i => take i s ++ new ++ drop (i + String.length old) s
  | None => s
  end.

(** Scan of [s.split(sep)] for a non-empty [sep]: the text before the
    first occurrence, and the list of the pieces after each occurrence. *)
Fixpoint split_scan (skip : nat) (s sep : string) : string * list string :=
  match s with
  | EmptyString => (EmptyString, [])
  | String c s' =>
      match skip with
      | S k => split_scan k s' sep
      | O =>
          if startswith s sep
          then let '(g, gs) := split_scan (String.length sep - 1) s' sep in
               (EmptyString, g :: gs)
          else let '(g, gs) := split_scan 0 s' sep in
               (String c g, gs)
      end
  end.

Definition pieces (p : string * list string) : list string := fst p :: snd p.

(** [s.split(sep)] for a non-empty [sep] (Python raises on an empty one;
    here the scan then cuts before every character). *)
Definition split (s sep : string) : list string :=
  pieces (split_scan 0 s sep).

(** [sep.join(parts)] *)
Fixpoint join (sep : string) (parts : list string) : string :=
  match parts with
  | [] => EmptyString
  | [p] => p
  | p :: ps => p ++ sep ++ join sep ps
  end.

End PyStr.

Import PyStr.

(** ** The script's literals

    Each triple-quoted block of the script is given line by line: [text]
    joins the lines with a newline, [dq] is the double-quote character. *)

Definition nl : string := String (ascii_of_nat 10) EmptyString.
Definition cr : string := String (ascii_of_nat 13) EmptyString.
Definition dq : string := String (ascii_of_nat 34) EmptyString.
Definition text (lines : list string) : string := join nl lines.

Module Script.

Definition old_imports : string := text
  [ "import {";
    "    Calendar,";
    "    List,";
    "    Plus,";
    "    Edit2,";
    "    Trash2,";
    "    ChevronLeft,";
    "    ChevronRight,";
    "    ChevronDown,";
    "    ChevronUp,";
    "    X,";
    "    Save,";
    "    ExternalLink,";
    "    Eye,";
    "    RotateCcw";
    "} from " ++ dq ++ "lucide-react" ++ dq ].

Definition new_imports : string := text
  [ "import {";
    "    Calendar,";
    "    List,";
    "    Plus,";
    "    Edit2,";
    "    Trash2,";
    "    ChevronLeft,";
    "    ChevronRight,";
    "    ChevronDown,";
    "    ChevronUp,";
    "    X,";
    "    Save,";
    "    ExternalLink,";
    "    Eye,";
    "    RotateCcw,";
    "    Copy,";
    "    HelpCircle";
    "} from " ++ dq ++ "lucide-react" ++ dq ].

Definition old_component_imports : string := text
  [ "import { useAdminSchedule } from " ++ dq ++ "@/hooks/use-admin-data" ++ dq;
    "import TimesheetDetail from " ++ dq ++ "@/components/TimesheetDetail" ++ dq ].

Definition new_component_imports : string := text
  [ "import { useAdminSchedule } from " ++ dq ++ "@/hooks/use-admin-data" ++ dq;
    "import { useKeyboardShortcuts } from " ++ dq ++ "@/hooks/use-keyboard-shortcuts" ++ dq;
    "import TimesheetDetail from " ++ dq ++ "@/components/TimesheetDetail" ++ dq;
    "import DuplicateShiftModal from " ++ dq ++ "@/components/DuplicateShiftModal" ++ dq;
    "import KeyboardShortcutsHelp from " ++ dq ++ "@/components/KeyboardShortcutsHelp" ++ dq ].

Definition old_timesheet_state : string := text
  [ "    // TimesheetDetail Modal State";
    "    const [showTimesheetDetail, setShowTimesheetDetail] = useState(false)";
    "    const [selectedTimesheetData, setSelectedTimesheetData] = useState<{";
    "        employeeId: string";
    "        clientId: string";
    "    } | null>(null)" ].

Definition new_timesheet_state : string := text
  [ "    // TimesheetDetail Modal State";
    "    const [showTimesheetDetail, setShowTimesheetDetail] = useState(false)";
    "    const [selectedTimesheetData, setSelectedTimesheetData] = useState<{";
    "        employeeId: string";
    "        clientId: string";
    "    } | null>(null)";
    EmptyString;
    "    // Duplicate Shift Modal State";
    "    const [showDuplicateModal, setShowDuplicateModal] = useState(false)";
    "    const [shiftToDuplicate, setShiftToDuplicate] = useState<Shift | null>(null)";
    EmptyString;
    "    // Keyboard Shortcuts Help Modal State";
    "    const [showShortcutsHelp, setShowShortcutsHelp] = useState(false)" ].

Definition old_navigate_section : string := text
  [ "    const closeTimesheetPreview = () => {";
    "        setShowTimesheetDetail(false)";
    "        setSelectedTimesheetData(null)";
    "    }";
    EmptyString;
    "    const navigateMonth = (delta: number) => {" ].

Definition new_navigate_section : string := text
  [ "    const closeTimesheetPreview = () => {";
    "        setShowTimesheetDetail(false)";
    "        setSelectedTimesheetData(null)";
    "    }";
    EmptyString;
    "    // Duplicate Shift Handler";
    "    const openDuplicateModal = useCallback((shift: Shift) => {";
    "        setShiftToDuplicate(shift)";
    "        setShowDuplicateModal(true)";
    "    }, [])";
    EmptyString;
    "    const handleDuplicateShift = async (targetDate: string) => {";
    "        if (!shiftToDuplicate) return";
    EmptyString;
    "        try {";
    "            const res = await fetch(" ++ dq ++ "/api/admin/schedule" ++ dq ++ ", {";
    "                method: " ++ dq ++ "POST" ++ dq ++ ",";
    "                headers: { " ++ dq ++ "Content-Type" ++ dq ++ ": " ++ dq ++ "application/json" ++ dq ++ " },";
    "                body: JSON.stringify({";
    "                    employeeId: shiftToDuplicate.employee.id,";
    "                    date: targetDate,";
    "                    plannedStart: shiftToDuplicate.plannedStart,";
    "                    plannedEnd: shiftToDuplicate.plannedEnd,";
    "                    backupEmployeeId: shiftToDuplicate.backupEmployee?.id || null,";
    "                    note: shiftToDuplicate.note || null";
    "                })";
    "            })";
    EmptyString;
    "            if (res.ok) {";
    "                showToast(" ++ dq ++ "success" ++ dq ++ ", " ++ dq ++ "Schicht erfolgreich dupliziert" ++ dq ++ ")";
    "                setShowDuplicateModal(false)";
    "                setShiftToDuplicate(null)";
    "                mutate() // Revalidate data";
    "            } else {";
    "                const data = await res.json()";
    "                showToast(" ++ dq ++ "error" ++ dq ++ ", data.error || " ++ dq ++ "Fehler beim Duplizieren" ++ dq ++ ")";
    "            }";
    "        } catch (error) {";
    "            console.error(" ++ dq ++ "Duplication error:" ++ dq ++ ", error)";
    "            showToast(" ++ dq ++ "error" ++ dq ++ ", " ++ dq ++ "Netzwerkfehler beim Duplizieren" ++ dq ++ ")";
    "        }";
    "    }";
    EmptyString;
    "    // Keyboard Shortcuts";
    "    useKeyboardShortcuts({";
    "        onNewShift: () => !showModal && !showDuplicateModal && !showShortcutsHelp && openCreateModal(),";
    "        onEscape: () => {";
    "            if (showModal) setShowModal(false)";
    "            else if (showDuplicateModal) setShowDuplicateModal(false)";
    "            else if (showShortcutsHelp) setShowShortcutsHelp(false)";
    "            else if (showTimesheetDetail) closeTimesheetPreview()";
    "        },";
    "        onSave: () => showModal && handleCreateOrUpdate(),";
    "        onPrevMonth: () => !showModal && !showDuplicateModal && !showShortcutsHelp && navigateMonth(-1),";
    "        onNextMonth: () => !showModal && !showDuplicateModal && !showShortcutsHelp && navigateMonth(1),";
    "        onListView: () => !showModal && !showDuplicateModal && !showShortcutsHelp && setViewMode(" ++ dq ++ "list" ++ dq ++ "),";
    "        onCalendarView: () => !showModal && !showDuplicateModal && !showShortcutsHelp && setViewMode(" ++ dq ++ "calendar" ++ dq ++ "),";
    "        onHelp: () => setShowShortcutsHelp(prev => !prev)";
    "    }, true)";
    EmptyString;
    "    const navigateMonth = (delta: number) => {" ].

Definition old_header_buttons : string := text
  [ "                    <div className=" ++ dq ++ "flex items-center gap-3" ++ dq ++ ">";
    "                        {/* View Toggle */}";
    "                        <div className=" ++ dq ++ "flex bg-neutral-800 rounded-lg p-1" ++ dq ++ ">" ].

Definition new_header_buttons : string := text
  [ "                    <div className=" ++ dq ++ "flex items-center gap-3" ++ dq ++ ">";
    "                        {/* Keyboard Shortcuts Help */}";
    "                        <button";
    "                            onClick={() => setShowShortcutsHelp(true)}";
    "                            className=" ++ dq ++ "p-2 hover:bg-neutral-800 rounded-lg transition text-neutral-400 hover:text-white" ++ dq;
    "                            title=" ++ dq ++ "Tastenkombinationen (Drücke ?)" ++ dq;
    "                            aria-label=" ++ dq ++ "Tastenkombinationen anzeigen" ++ dq;
    "                        >";
    "                            <HelpCircle size={20} />";
    "                        </button>";
    EmptyString;
    "                        {/* View Toggle */}";
    "                        <div className=" ++ dq ++ "flex bg-neutral-800 rounded-lg p-1" ++ dq ++ ">" ].

Definition old_action_buttons : string := text
  [ "                                                                    <div className=" ++ dq ++ "flex gap-1 justify-end" ++ dq ++ ">";
    "                                                                        <button";
    "                                                                            onClick={(e) => {";
    "                                                                                e.stopPropagation()";
    "                                                                                openTimesheetPreview(shift)";
    "                                                                            }}";
    "                                                                            className=" ++ dq ++ "p-1.5 text-neutral-500 hover:text-violet-400 hover:bg-violet-900/30 rounded transition" ++ dq;
    "                                                                            title=" ++ dq ++ "Stundennachweis anzeigen" ++ dq;
    "                                                                        >";
    "                                                                            <Eye size={14} />";
    "                                                                        </button>";
    "                                                                        <button";
    "                                                                            onClick={() => openEditModal(shift)}";
    "                                                                            className=" ++ dq ++ "p-1.5 text-neutral-500 hover:text-blue-400 hover:bg-blue-900/30 rounded transition" ++ dq;
    "                                                                        >";
    "                                                                            <Edit2 size={14} />";
    "                                                                        </button>";
    "                                                                        <button";
    "                                                                            onClick={() => handleDelete(shift.id)}";
    "                                                                            className=" ++ dq ++ "p-1.5 text-neutral-500 hover:text-red-400 hover:bg-red-900/30 rounded transition" ++ dq;
    "                                                                        >";
    "                                                                            <Trash2 size={14} />";
    "                                                                        </button>";
    "                                                                    </div>" ].

Definition new_action_buttons : string := text
  [ "                                                                    <div className=" ++ dq ++ "flex gap-1 justify-end" ++ dq ++ ">";
    "                                                                        <button";
    "                                                                            onClick={(e) => {";
    "                                                                                e.stopPropagation()";
    "                                                                                openTimesheetPreview(shift)";
    "                                                                            }}";
    "                                                                            className=" ++ dq ++ "p-1.5 text-neutral-500 hover:text-violet-400 hover:bg-violet-900/30 rounded transition" ++ dq;
    "                                                                            title=" ++ dq ++ "Stundennachweis anzeigen" ++ dq;
    "                                                                        >";
    "                                                                            <Eye size={14} />";
    "                                                                        </button>";
    "                                                                        <button";
    "                                                                            onClick={(e) => {";
    "                                                                                e.stopPropagation()";
    "                                                                                openDuplicateModal(shift)";
    "                                                                            }}";
    "                                                                            className=" ++ dq ++ "p-1.5 text-neutral-500 hover:text-violet-400 hover:bg-violet-900/30 rounded transition" ++ dq;
    "                                                                            title=" ++ dq ++ "Schicht duplizieren" ++ dq;
    "                                                                        >";
    "                                                                            <Copy size={14} />";
    "                                                                        </button>";
    "                                                                        <button";
    "                                                                            onClick={() => openEditModal(shift)}";
    "                                                                            className=" ++ dq ++ "p-1.5 text-neutral-500 hover:text-blue-400 hover:bg-blue-900/30 rounded transition" ++ dq;
    "                                                                        >";
    "                                                                            <Edit2 size={14} />";
    "                                                                        </button>";
    "                                                                        <button";
    "                                                                            onClick={() => handleDelete(shift.id)}";
    "                                                                            className=" ++ dq ++ "p-1.5 text-neutral-500 hover:text-red-400 hover:bg-red-900/30 rounded transition" ++ dq;
    "                                                                        >";
    "                                                                            <Trash2 size={14} />";
    "                                                                        </button>";
    "                                                                    </div>" ].

Definition old_timesheet_modal : string := text
  [ "                {/* Timesheet Detail Modal */}";
    "                {showTimesheetDetail && selectedTimesheetData && (";
    "                    <TimesheetDetail";
    "                        employeeId={selectedTimesheetData.employeeId}";
    "                        clientId={selectedTimesheetData.clientId}";
    "                        month={month}";
    "                        year={year}";
    "                        onClose={closeTimesheetPreview}";
    "                    />";
    "                )}";
    "            </div>";
    "        </div>";
    "    )";
    "}" ].

Definition new_timesheet_modal : string := text
  [ "                {/* Timesheet Detail Modal */}";
    "                {showTimesheetDetail && selectedTimesheetData && (";
    "                    <TimesheetDetail";
    "                        employeeId={selectedTimesheetData.employeeId}";
    "                        clientId={selectedTimesheetData.clientId}";
    "                        month={month}";
    "                        year={year}";
    "                        onClose={closeTimesheetPreview}";
    "                    />";
    "                )}";
    EmptyString;
    "                {/* Duplicate Shift Modal */}";
    "                {showDuplicateModal && shiftToDuplicate && (";
    "                    <DuplicateShiftModal";
    "                        shift={shiftToDuplicate}";
    "                        onClose={() => {";
    "                            setShowDuplicateModal(false)";
    "                            setShiftToDuplicate(null)";
    "                        }}";
    "                        onDuplicate={handleDuplicateShift}";
    "                    />";
    "                )}";
    EmptyString;
    "                {/* Keyboard Shortcuts Help Modal */}";
    "                {showShortcutsHelp && (";
    "                    <KeyboardShortcutsHelp";
    "                        onClose={() => setShowShortcutsHelp(false)}";
    "                    />";
    "                )}";
    "            </div>";
    "        </div>";
    "    )";
    "}" ].

Definition banner : list string :=
  [ "✅ Schedule page updated successfully!";
    "Added features:";
    "  - Keyboard shortcuts (N, ESC, Ctrl+S, ←, →, L, C, ?)";
    "  - Shift duplication with quick options and custom date picker";
    "  - Keyboard shortcuts help modal" ].

End Script.

(** ** Substitution steps and the pipeline *)

Record step : Type := Step { anchor : string; replacement : string }.

(** One statement [content = content.replace(old, new)]. *)
Definition apply_step (content : string) (st : step) : string :=
  replace content (anchor st) (replacement st).

(** Steps run in list order, each on the buffer the previous one left. *)
Definition run (content : string) (steps : list step) : string :=
  fold_left apply_step steps content.

(** The steps of a run whose anchor occurred in the buffer they were
    given. *)
Fixpoint matched (content : string) (steps : list step) : list step :=
  match steps with
  | [] => []
  | st :: rest =>
      (if contains content (anchor st) then [st] else [])
        ++ matched (apply_step content st) rest
  end.

(** ** Overlap of an anchor with a replacement

    Whether an occurrence of the anchor can be assembled from a replacement
    and the text next to it is decided on the two literals alone. *)

(** One of the two strings is a prefix of the other. *)
Definition comparable (a b : string) : bool :=
  startswith a b || startswith b a.

(** No non-empty suffix of [t] is [comparable] with [p]. *)
Fixpoint no_suffix_comparable (t p : string) : bool :=
  match t with
  | EmptyString => true
  | String _ t' => negb (comparable t p) && no_suffix_comparable t' p
  end.

(** The anchor [old] is non-empty, it neither occurs in [new] nor begins in
    a tail of [new], and no proper tail of [old] continues into [new]. *)
Definition junction_safe (old new : string) : bool :=
  match old with
  | EmptyString => false
  | String _ old' =>
      no_suffix_comparable new old && no_suffix_comparable old' new
  end.

(** The replacement of a step is strictly longer than its non-empty
    anchor. *)
Definition grows (st : step) : bool :=
  ((0 <? String.length (anchor st))%nat
   && (String.length (anchor st) <? String.length (replacement st))%nat)%bool.

Module Pipeline.
Import Script.

(** The seven rebinding statements of the script, in order. *)
Definition transform (content : string) : string :=
  let content := replace content old_imports new_imports in
  let content := replace content old_component_imports new_component_imports in
  let content := replace content old_timesheet_state new_timesheet_state in
  let content := replace content old_navigate_section new_navigate_section in
  let content := replace content old_header_buttons new_header_buttons in
  let content := replace content old_action_buttons new_action_buttons in
  let content := replace content old_timesheet_modal new_timesheet_modal in
  content.

(** The same seven statements as a list of steps. *)
Definition steps : list step :=
  [ Step old_imports new_imports;
    Step old_component_imports new_component_imports;
    Step old_timesheet_state new_timesheet_state;
    Step old_navigate_section new_navigate_section;
    Step old_header_buttons new_header_buttons;
    Step old_action_buttons new_action_buttons;
    Step old_timesheet_modal new_timesheet_modal ].

(** No anchor of the pipeline occurs in [content]. *)
Definition anchor_free (content : string) : bool :=
  forallb (fun st => negb (contains content (anchor st))) steps.

End Pipeline.

(** ** Text-mode file input and output

    [open(path, "r", encoding="utf-8")] and [open(path, "w", ...)] leave
    [newline] at its default: on reading, a carriage return followed by a
    line feed, or a lone carriage return, becomes a line feed; on writing,
    a line feed becomes the platform's line separator.  Opening with mode
    ["w"] truncates the file before anything is written. *)

Module TextIO.

Inductive platform : Type := Posix | Windows.

(** [os.linesep] *)
Definition linesep (os : platform) : string :=
  match os with
  | Posix => nl
  | Windows => cr ++ nl
  end.

Definition LF : ascii := ascii_of_nat 10.
Definition CR : ascii := ascii_of_nat 13.

(** Universal-newline translation applied by [f.read()]. *)
Fixpoint universal_newlines (s : string) : string :=
  match s with
  | EmptyString => EmptyString
  | String c s' =>
      if Ascii.eqb c CR then
        match s' with
        | EmptyString => String LF EmptyString
        | String c' s'' =>
            if Ascii.eqb c' LF
            then String LF (universal_newlines s'')
            else String LF (universal_newlines s')
        end
      else String c (universal_newlines s')
  end.

(** Translation applied by [f.write(content)]. *)
Fixpoint write_newlines (os : platform) (s : string) : string :=
  match s with
  | EmptyString => EmptyString
  | String c s' =>
      if Ascii.eqb c LF
      then linesep os ++ write_newlines os s'
      else String c (write_newlines os s')
  end.

(** The target file.  [readable] stands for: opening for reading and
    decoding the bytes as UTF-8 both succeed. *)
Record file : Type := File {
  data : string;
  readable : bool;
  writable : bool
}.

(** What the storage medium does with the bytes handed to it. *)
Inductive medium : Type :=
| Accepts                 (* every byte is stored *)
| FailsAfter (n : nat).   (* at most [n] bytes are stored, then an error *)

(** [console] tells which lines standard output takes: a line is refused
    when the encoding of standard output has no code for one of its
    characters ([print] then raises [UnicodeEncodeError]). *)
Record world : Type := World {
  disk : option file;     (* [None]: the path does not exist *)
  storage : medium;
  console : string -> bool;
  stdout : list string    (* lines printed so far *)
}.

(** Standard output encoded as UTF-8 takes every line. *)
Definition utf8_console (line : string) : bool := true.

(** Standard output encoded as ASCII takes the lines of ASCII characters. *)
Fixpoint ascii_console (line : string) : bool :=
  match line with
  | EmptyString => true
  | String c rest => is_ascii c && ascii_console rest
  end.

(** The uncaught exceptions of the script, by the statement that raises:
    the read block, the write block, a [print]. *)
Inductive failure : Type := ReadFailure | WriteFailure | PrintFailure.

Inductive result (A : Type) : Type :=
| Ok (a : A)
| Raise (e : failure).
Arguments Ok {A} a.
Arguments Raise {A} e.

(** Computations over the world that may raise. *)
Definition io (A : Type) : Type := world -> result A * world.

Definition ret {A} (a : A) : io A := fun w => (Ok a, w).

Definition bind {A B} (m : io A) (k : A -> io B) : io B :=
  fun w =>
    match m w with
    | (Ok a, w') => k a w'
    | (Raise e, w') => (Raise e, w')
    end.

Notation "x <- m ;; k" := (bind m (fun x => k))
  (at level 61, m at next level, right associativity).
Notation "m ;;; k" := (bind m (fun _ => k))
  (at level 61, right associativity).

(** [with open(path, "r", encoding="utf-8") as f: content = f.read()] *)
Definition read_text : io string :=
  fun w =>
    match disk w with
    | Some f =>
        if readable f
        then (Ok (universal_newlines (data f)), w)
        else (Raise ReadFailure, w)
    | None => (Raise ReadFailure, w)
    end.

(** [open(path, "w", encoding="utf-8")]: creates or truncates. *)
Definition open_write : io unit :=
  fun w =>
    match disk w with
    | Some f =>
        if writable f
        then (Ok tt, World (Some (File EmptyString (readable f) (writable f)))
                           (storage w) (console w) (stdout w))
        else (Raise WriteFailure, w)
    | None =>
        (Ok tt, World (Some (File EmptyString true true))
                      (storage w) (console w) (stdout w))
    end.

(** [f.write(content)] and the flush on leaving the [with] block, on a
    file just opened for writing. *)
Definition write_text (os : platform) (content : string) : io unit :=
  fun w =>
    let bytes := write_newlines os content in
    let store (b : string) :=
      World (option_map (fun f => File b (readable f) (writable f)) (disk w))
            (storage w) (console w) (stdout w) in
    match storage w with
    | Accepts => (Ok tt, store bytes)
    | FailsAfter n => (Raise WriteFailure, store (take n bytes))
    end.

(** [print(line)]: the line is encoded whole before any of it is put
    out, so a refused line leaves standard output as it was. *)
Definition print (line : string) : io unit :=
  fun w =>
    if console w line
    then (Ok tt, World (disk w) (storage w) (console w) (stdout w ++ [line]))
    else (Raise PrintFailure, w).

Fixpoint print_lines (lines : list string) : io unit :=
  match lines with
  | [] => ret tt
  | l :: ls => print l ;;; print_lines ls
  end.

(** The script with its step list as a parameter. *)
Definition execute (os : platform) (steps : list step) : io unit :=
  content <- read_text ;;
  let content := run content steps in
  open_write ;;;
  write_text os content ;;;
  print_lines Script.banner.

(** The script as written: read, the seven statements, write, banner. *)
Definition main (os : platform) : io unit :=
  content <- read_text ;;
  let content := Pipeline.transform content in
  open_write ;;;
  write_text os content ;;;
  print_lines Script.banner.

(** A world holding one ordinary file, a UTF-8 standard output, nothing
    printed yet. *)
Definition plain (s : string) : world :=
  World (Some (File s true true)) Accepts utf8_console [].

End TextIO.

(** * Properties *)

(** ** Strings *)

Section StringFacts.

Lemma append_empty_r (s : string) : s ++ EmptyString = s.
Proof. induction s as [|c s IH]; simpl; [reflexivity | now rewrite IH]. Qed.

Lemma append_assoc (a b c : string) : (a ++ b) ++ c = a ++ (b ++ c).
Proof. induction a as [|x a IH]; simpl; [reflexivity | now rewrite IH]. Qed.

Lemma length_app (a b : string) :
  String.length (a ++ b) = String.length a + String.length b.
Proof. induction a as [|x a IH]; simpl; [reflexivity | now rewrite IH]. Qed.

Lemma append_inv_head (a b c : string) : a ++ b = a ++ c -> b = c.
Proof.
  induction a as [|x a IH]; simpl; intros H; [exact H|].
  injection H as H. now apply IH.
Qed.

Lemma append_same_length (a b c d : string) :
  a ++ b = c ++ d -> String.length a = String.length c -> a = c.
Proof.
  revert c; induction a as [|x a IH]; intros [|y c] H E;
    simpl in *; try discriminate; [reflexivity|].
  injection H as -> H. f_equal. apply (IH c); [exact H | lia].
Qed.

Lemma startswith_app (p t : string) : startswith (p ++ t) p = true.
Proof.
  induction p as [|c p IH]; simpl; [reflexivity|].
  now rewrite Ascii.eqb_refl, IH.
Qed.

Lemma startswith_split (s p : string) :
  startswith s p = true -> s = p ++ drop (String.length p) s.
Proof.
  revert s; induction p as [|a p IH]; intros s H; simpl in *.
  - now destruct s.
  - destruct s as [|b s]; [discriminate|].
    apply andb_true_iff in H as [Hab Hp].
    apply Ascii.eqb_eq in Hab; subst b.
    f_equal; now apply IH.
Qed.

Lemma startswith_app_l (x t p : string) :
  startswith x p = true -> startswith (x ++ t) p = true.
Proof.
  intros H. rewrite (startswith_split _ _ H), append_assoc.
  apply startswith_app.
Qed.

Lemma drop_length_cons (p : string) (c : ascii) (s : string) :
  p <> EmptyString ->
  drop (String.length p) (String c s) = drop (String.length p - 1) s.
Proof.
  destruct p as [|a p]; [congruence|]. intros _. simpl.
  now rewrite Nat.sub_0_r.
Qed.

Lemma startswith_empty (p : string) :
  p <> EmptyString -> startswith EmptyString p = false.
Proof. destruct p; [congruence | reflexivity]. Qed.

End StringFacts.

(** ** [find] and [in] *)

Section FindFacts.

Lemma find_cons_none (c : ascii) (s sub : string) :
  find (String c s) sub = None ->
  startswith (String c s) sub = false /\ find s sub = None.
Proof.
  cbn [find]. destruct (startswith (String c s) sub); [discriminate|].
  destruct (find s sub); [discriminate | auto].
Qed.

Lemma find_empty_sub (s : string) : find s EmptyString = Some 0.
Proof. now destruct s. Qed.

(** The index returned by [find] is an occurrence, and the leftmost one. *)
Lemma find_some (s sub : string) (i : nat) :
  find s sub = Some i ->
  s = take i s ++ sub ++ drop (i + String.length sub) s
  /\ forall j, j < i -> startswith (drop j s) sub = false.
Proof.
  revert i; induction s as [|c s IH]; intros i; cbn [find].
  - destruct (startswith EmptyString sub) eqn:E; [|discriminate].
    intros [= <-]. split; [|intros j Hj; lia].
    simpl. now apply startswith_split.
  - destruct (startswith (String c s) sub) eqn:E.
    + intros [= <-]. split; [|intros j Hj; lia].
      simpl take. simpl append at 1. now apply startswith_split.
    + destruct (find s sub) as [k|] eqn:F; [|discriminate].
      intros [= <-]. destruct (IH k eq_refl) as [Hs Hl].
      split.
      * simpl. f_equal. exact Hs.
      * intros [|j] Hj; [exact E|]. simpl. apply Hl; lia.
Qed.

Lemma contains_false_find (s sub : string) :
  contains s sub = false -> find s sub = None.
Proof. unfold contains. now destruct (find s sub). Qed.

Lemma contains_nonempty (s sub : string) :
  contains s sub = false -> sub <> EmptyString.
Proof.
  intros H ->. unfold contains in H. now rewrite find_empty_sub in H.
Qed.

Lemma contains_empty_buffer (sub : string) :
  sub <> EmptyString -> contains EmptyString sub = false.
Proof. destruct sub; [congruence | reflexivity]. Qed.

End FindFacts.

(** ** [replace] *)

Section ReplaceFacts.

Variables old new : string.
Hypothesis old_nonempty : old <> EmptyString.

Lemma replace_nonempty (s : string) :
  replace s old new = replace_scan 0 s old new.
Proof using old_nonempty. unfold replace. destruct old; congruence. Qed.

(** Passing over [k] characters is dropping them. *)
Lemma replace_scan_skip (k : nat) (s : string) :
  replace_scan k s old new = replace_scan 0 (drop k s) old new.
Proof.
  revert k; induction s as [|c s IH]; intros [|k]; try reflexivity.
  simpl. apply IH.
Qed.

(** A buffer without the anchor is returned as it is. *)
Lemma replace_scan_absent (s : string) :
  find s old = None -> replace_scan 0 s old new = s.
Proof.
  induction s as [|c s IH]; intros H; [reflexivity|].
  apply find_cons_none in H as [Hp Hf].
  cbn [replace_scan]. rewrite Hp. f_equal. now apply IH.
Qed.

(** One round of the scan: the leftmost occurrence is rewritten and the
    scan goes on in the text behind it. *)
Lemma replace_scan_found (s : string) (i : nat) :
  find s old = Some i ->
  replace_scan 0 s old new
  = take i s ++ new ++ replace_scan 0 (drop (i + String.length old) s) old new.
Proof using old_nonempty.
  revert i; induction s as [|c s IH]; intros i; cbn [find].
  - now rewrite (startswith_empty _ old_nonempty).
  - cbn [replace_scan].
    destruct (startswith (String c s) old) eqn:E.
    + intros [= <-]. change (take 0 (String c s)) with EmptyString.
      change (EmptyString ++ ?x) with x.
      rewrite replace_scan_skip. f_equal.
      change (0 + String.length old) with (String.length old).
      now rewrite drop_length_cons.
    + destruct (find s old) as [k|] eqn:F; [|discriminate].
      intros [= <-]. simpl. f_equal. now apply IH.
Qed.

End ReplaceFacts.

Lemma replace_absent (s old new : string) :
  contains s old = false -> replace s old new = s.
Proof.
  intros H. pose proof (contains_nonempty _ _ H) as Hne.
  rewrite (replace_nonempty _ _ Hne).
  apply replace_scan_absent. now apply contains_false_find.
Qed.

(** ** [split] and [join] *)

Section SplitFacts.

Variable sep : string.
Hypothesis sep_nonempty : sep <> EmptyString.

Lemma join_cons_char (x : string) (c : ascii) (g : string) (gs : list string) :
  join x (String c g :: gs) = String c (join x (g :: gs)).
Proof. destruct gs; reflexivity. Qed.

Lemma join_cons_empty (x : string) (g : string) (gs : list string) :
  join x (EmptyString :: g :: gs) = x ++ join x (g :: gs).
Proof. reflexivity. Qed.

Lemma join_head (x g : string) (gs : list string) :
  exists t, join x (g :: gs) = g ++ t.
Proof.
  destruct gs as [|g' gs].
  - exists EmptyString. simpl. now rewrite append_empty_r.
  - now exists (x ++ join x (g' :: gs)).
Qed.

(** Joining the pieces with the separator gives back what was scanned. *)
Lemma join_split_scan (k : nat) (s : string) :
  join sep (pieces (split_scan k s sep)) = drop k s.
Proof using sep_nonempty.
  revert k; induction s as [|c s IH]; intros [|k]; try reflexivity.
  - cbn [split_scan].
    destruct (startswith (String c s) sep) eqn:E.
    + specialize (IH (String.length sep - 1)).
      destruct (split_scan (String.length sep - 1) s sep) as [g gs].
      unfold pieces in *; cbn [fst snd] in *.
      rewrite join_cons_empty, IH.
      change (drop 0 (String c s)) with (String c s).
      rewrite (startswith_split _ _ E).
      now rewrite drop_length_cons.
    + specialize (IH 0).
      destruct (split_scan 0 s sep) as [g gs].
      unfold pieces in *; cbn [fst snd] in *.
      rewrite join_cons_char, IH. reflexivity.
  - simpl. apply IH.
Qed.

(** Joining them with another string is [replace]. *)
Lemma join_replace_scan (new : string) (k : nat) (s : string) :
  join new (pieces (split_scan k s sep)) = replace_scan k s sep new.
Proof.
  revert k; induction s as [|c s IH]; intros [|k]; try reflexivity.
  - cbn [split_scan replace_scan].
    destruct (startswith (String c s) sep) eqn:E.
    + specialize (IH (String.length sep - 1)).
      destruct (split_scan (String.length sep - 1) s sep) as [g gs].
      unfold pieces in *; cbn [fst snd] in *.
      now rewrite join_cons_empty, IH.
    + specialize (IH 0).
      destruct (split_scan 0 s sep) as [g gs].
      unfold pieces in *; cbn [fst snd] in *.
      now rewrite join_cons_char, IH.
  - simpl. apply IH.
Qed.

(** No piece contains the separator. *)
Lemma split_scan_free (k : nat) (s : string) :
  Forall (fun g => contains g sep = false) (pieces (split_scan k s sep)).
Proof using sep_nonempty.
  revert k; induction s as [|c s IH]; intros [|k].
  - repeat constructor. now apply contains_empty_buffer.
  - repeat constructor. now apply contains_empty_buffer.
  - cbn [split_scan].
    destruct (startswith (String c s) sep) eqn:E.
    + specialize (IH (String.length sep - 1)).
      destruct (split_scan (String.length sep - 1) s sep) as [g gs].
      unfold pieces in *; cbn [fst snd] in *.
      constructor; [now apply contains_empty_buffer | exact IH].
    + pose proof (join_split_scan 0 s) as J.
      specialize (IH 0).
      destruct (split_scan 0 s sep) as [g gs].
      unfold pieces in *; cbn [fst snd] in *.
      inversion IH as [|? ? Hg Hgs]; subst.
      constructor; [|exact Hgs].
      unfold contains in *. cbn [find].
      destruct (startswith (String c g) sep) eqn:E'.
      * destruct (join_head sep g gs) as [t Ht].
        rewrite J in Ht. simpl in Ht. subst s.
        apply (startswith_app_l _ t) in E'. simpl in E'. congruence.
      * now destruct (find g sep).
  - simpl. apply IH.
Qed.

End SplitFacts.

Section Occurrences.

(** Total length of the pieces of a split. *)
Lemma length_join (x g : string) (gs : list string) :
  String.length (join x (g :: gs))
  = fold_right (fun p n => String.length p + n) 0 (g :: gs)
    + List.length gs * String.length x.
Proof.
  revert g; induction gs as [|g' gs IH]; intros g.
  - simpl. lia.
  - change (join x (g :: g' :: gs)) with (g ++ x ++ join x (g' :: gs)).
    rewrite !length_app, IH. simpl. lia.
Qed.

Lemma split_cons (s sep : string) :
  split s sep = fst (split_scan 0 s sep) :: snd (split_scan 0 s sep).
Proof. reflexivity. Qed.

(** An anchor that occurs is met by the scan. *)
Lemma split_scan_found (s old : string) :
  old <> EmptyString ->
  contains s old = true ->
  snd (split_scan 0 s old) <> [].
Proof.
  intros Hne Hc E.
  pose proof (join_split_scan old Hne 0 s) as J.
  pose proof (split_scan_free old Hne 0 s) as F.
  unfold pieces in J, F. rewrite E in J, F. simpl in J.
  inversion F as [|? ? Hg _]; subst. rewrite J in Hg. congruence.
Qed.

(** A buffer in which the anchor occurs is changed by a replacement that
    is not the anchor itself. *)
Lemma replace_changes_found (s old new : string) :
  old <> EmptyString ->
  new <> old ->
  contains s old = true ->
  replace s old new <> s.
Proof.
  intros Hne Hneq Hc E.
  pose proof (split_scan_found s old Hne Hc) as Hn.
  pose proof (f_equal String.length (join_split_scan old Hne 0 s)) as J.
  pose proof (f_equal String.length (join_replace_scan old new 0 s)) as R.
  change (drop 0 s) with s in J. unfold pieces in J, R.
  rewrite length_join in J, R.
  rewrite (replace_nonempty _ new Hne) in E. rewrite E in R.
  assert (Hlen : String.length new = String.length old).
  { destruct (snd (split_scan 0 s old)) as [|g gs]; [congruence|].
    simpl List.length in J, R. nia. }
  unfold contains in Hc. destruct (find s old) as [i|] eqn:F; [|discriminate].
  pose proof (replace_scan_found old new Hne s i F) as U.
  destruct (find_some _ _ _ F) as [D _].
  rewrite E in U. rewrite D in U at 1.
  apply append_inv_head in U. symmetry in U.
  apply append_same_length in U; [congruence | exact Hlen].
Qed.

End Occurrences.

(** ** Substitution step *)

Example scenario_once :
  run (text ["A"; "B"; "C"]) [Step "B" "B2"] = text ["A"; "B2"; "C"].
Proof. reflexivity. Qed.

Example scenario_again :
  run (text ["A"; "B2"; "C"]) [Step "B" "B2"] = text ["A"; "B22"; "C"].
Proof. reflexivity. Qed.

Example interleave_example : replace "abc" EmptyString "-" = "-a-b-c-".
Proof. reflexivity. Qed.

(** The empty anchor is put around code points, not bytes. *)
Example interleave_code_points : replace "é" EmptyString "-" = "-é-".
Proof. reflexivity. Qed.

Example no_overlap_example : replace "aaa" "aa" "b" = "ba".
Proof. reflexivity. Qed.

(** C1, as stated, fails: with the anchor twice in the buffer, the step
    rewrites both occurrences, where a leftmost-only replacement would
    leave the second one. *)
Lemma step_rewrites_second_occurrence :
  contains "B B" "B" = true
  /\ apply_step "B B" (Step "B" "X") = "X X"
  /\ replace_first "B B" "B" "X" = "X B"
  /\ apply_step "B B" (Step "B" "X") <> replace_first "B B" "B" "X".
Proof. repeat split; try reflexivity. discriminate. Qed.

(** The same on the script's first step: two copies of [old_imports]
    become two copies of [new_imports]. *)
Example first_step_rewrites_both_copies :
  apply_step (Script.old_imports ++ nl ++ Script.old_imports)
             (Step Script.old_imports Script.new_imports)
  = Script.new_imports ++ nl ++ Script.new_imports.
Proof. vm_compute. reflexivity. Qed.

(** C1 (amended): when the non-empty anchor occurs in the buffer, with its
    leftmost occurrence at index [i], the step replaces that occurrence and
    rewrites the text behind it in the same way, so every further
    non-overlapping occurrence is replaced too.  When the anchor does not
    occur again in the text behind the leftmost occurrence, that text is
    left verbatim (the step is the leftmost-only replacement); when it
    does occur again and the replacement is not the anchor itself, the step
    differs from the leftmost-only replacement. *)
Theorem step_replaces_leftmost_then_rest (s : string) (st : step) (i : nat) :
  anchor st <> EmptyString ->
  find s (anchor st) = Some i ->
  let rest := drop (i + String.length (anchor st)) s in
  s = take i s ++ anchor st ++ rest
  /\ (forall j, j < i -> startswith (drop j s) (anchor st) = false)
  /\ apply_step s st = take i s ++ replacement st ++ apply_step rest st
  /\ (contains rest (anchor st) = false ->
      apply_step s st = replace_first s (anchor st) (replacement st))
  /\ (contains rest (anchor st) = true ->
      replacement st <> anchor st ->
      apply_step s st <> replace_first s (anchor st) (replacement st)).
Proof.
  intros Hne Hf rest.
  destruct (find_some _ _ _ Hf) as [Hs Hl].
  assert (Hstep : apply_step s st
                  = take i s ++ replacement st ++ apply_step rest st).
  { unfold apply_step. rewrite !(replace_nonempty _ _ Hne).
    now apply replace_scan_found. }
  split; [exact Hs|]. split; [exact Hl|]. split; [exact Hstep|]. split.
  - intros Hrest. rewrite Hstep. unfold replace_first. rewrite Hf.
    unfold apply_step. now rewrite (replace_absent _ _ _ Hrest).
  - intros Hrest Hneq E. rewrite Hstep in E. unfold replace_first in E.
    rewrite Hf in E. fold rest in E.
    apply append_inv_head, append_inv_head in E.
    now apply (replace_changes_found rest _ _ Hne Hneq Hrest).
Qed.

Lemma step_replaces_leftmost_then_rest_witness :
  find "a-b-c" "-" = Some 1
  /\ apply_step "a-b-c" (Step "-" "+")
     = "a" ++ "+" ++ apply_step "b-c" (Step "-" "+")
  /\ apply_step "a-b-c" (Step "-" "+") = "a+b+c"
  /\ apply_step "a-b-c" (Step "-" "+") <> replace_first "a-b-c" "-" "+".
Proof.
  assert (Hne : anchor (Step "-" "+") <> EmptyString) by discriminate.
  assert (Hf : find "a-b-c" (anchor (Step "-" "+")) = Some 1) by reflexivity.
  pose proof (step_replaces_leftmost_then_rest "a-b-c" (Step "-" "+") 1 Hne Hf)
    as [_ [_ [Hstep [_ Hdiff]]]].
  split; [reflexivity|]. split; [exact Hstep|]. split; [reflexivity|].
  apply Hdiff; [reflexivity | discriminate].
Defined.

(** C2: a step whose anchor does not occur in the buffer returns the
    buffer as it is (the step is a total function, nothing is raised), so
    it can be dropped from a run; and every run gives the result of
    running only the steps whose anchors matched. *)
Theorem absent_anchor_leaves_buffer (s : string) (st : step) (steps : list step) :
  contains s (anchor st) = false ->
  apply_step s st = s
  /\ run s (st :: steps) = run s steps
  /\ (forall buf all, run buf all = run buf (matched buf all)).
Proof.
  intros H.
  assert (Hs : apply_step s st = s) by now apply replace_absent.
  split; [exact Hs|]. split; [simpl; now rewrite Hs|].
  intros buf all; revert buf.
  induction all as [|a rest IH]; intros buf; [reflexivity|].
  cbn [matched run fold_left].
  destruct (contains buf (anchor a)) eqn:E.
  - simpl. apply IH.
  - assert (Ha : apply_step buf a = buf) by now apply replace_absent.
    rewrite Ha. simpl. apply IH.
Qed.

Lemma absent_anchor_leaves_buffer_witness :
  apply_step "A" (Step "B" "B2") = "A"
  /\ run "A" [Step "B" "B2"; Step "A" "Z"] = run "A" [Step "A" "Z"]
  /\ (forall buf all, run buf all = run buf (matched buf all)).
Proof.
  apply (absent_anchor_leaves_buffer "A" (Step "B" "B2") [Step "A" "Z"]).
  reflexivity.
Defined.

(** Outside the script a replacement that does not contain the anchor can
    still rebuild it with the text around it, as here; the script's steps
    are checked against this below. *)
Example anchor_rebuilt_at_junction :
  contains "b" "ab" = false
  /\ apply_step "aab" (Step "ab" "b") = "ab".
Proof. split; reflexivity. Qed.

Section ContainsFacts.

Lemma contains_cons_false (c : ascii) (g p : string) :
  contains (String c g) p = false ->
  startswith (String c g) p = false /\ contains g p = false.
Proof.
  intros H. apply contains_false_find in H.
  apply find_cons_none in H as [H1 H2]. split; [exact H1|].
  unfold contains. now rewrite H2.
Qed.

Lemma contains_cons_intro (c : ascii) (g p : string) :
  startswith (String c g) p = false -> contains g p = false ->
  contains (String c g) p = false.
Proof.
  intros H1 H2. apply contains_false_find in H2.
  unfold contains. cbn [find]. now rewrite H1, H2.
Qed.

End ContainsFacts.

(** ** Pipeline *)

Lemma run_app (s : string) (l1 l2 : list step) :
  run s (l1 ++ l2) = run (run s l1) l2.
Proof. unfold run. apply fold_left_app. Qed.

Lemma transform_is_run (s : string) :
  Pipeline.transform s = run s Pipeline.steps.
Proof. reflexivity. Qed.

(** A buffer in which no anchor of a step list occurs is a fixed point of
    the run. *)
Lemma run_without_anchors (steps : list step) (t : string) :
  forallb (fun st => negb (contains t (anchor st))) steps = true ->
  run t steps = t.
Proof.
  induction steps as [|st rest IH]; intros H; [reflexivity|].
  simpl in H. apply andb_true_iff in H as [Hst Hrest].
  apply negb_true_iff in Hst.
  simpl. unfold apply_step at 1. rewrite (replace_absent _ _ _ Hst).
  now apply IH.
Qed.

(** C4: when B's anchor is absent from the buffer and present after A's
    step, [A; B] runs both steps (both match), while [B; A] leaves the
    buffer to A alone (B is a no-op and only A matches); a run applies its
    steps left to right, each to the output of the one before. *)
Theorem order_of_steps_matters (s : string) (A B : step) :
  contains s (anchor B) = false ->
  contains (apply_step s A) (anchor B) = true ->
  (run s [A; B] = apply_step (apply_step s A) B /\ matched s [A; B] = [A; B])
  /\ (run s [B; A] = apply_step s A /\ matched s [B; A] = [A])
  /\ (forall buf steps st,
        run buf (steps ++ [st]) = apply_step (run buf steps) st).
Proof.
  intros HB HAB.
  assert (HA : contains s (anchor A) = true).
  { destruct (contains s (anchor A)) eqn:E; [reflexivity|].
    unfold apply_step in HAB. rewrite (replace_absent _ _ _ E) in HAB.
    congruence. }
  assert (HBs : apply_step s B = s) by now apply replace_absent.
  repeat split.
  - cbn [matched]. now rewrite HA, HAB.
  - simpl. now rewrite HBs.
  - cbn [matched]. now rewrite HB, HBs, HA.
  - intros buf steps st. now rewrite run_app.
Qed.

Lemma order_of_steps_matters_witness :
  (run "x" [Step "x" "yz"; Step "y" "w"] = "wz"
   /\ matched "x" [Step "x" "yz"; Step "y" "w"] = [Step "x" "yz"; Step "y" "w"])
  /\ (run "x" [Step "y" "w"; Step "x" "yz"] = "yz"
      /\ matched "x" [Step "y" "w"; Step "x" "yz"] = [Step "x" "yz"])
  /\ (forall buf steps st,
        run buf (steps ++ [st]) = apply_step (run buf steps) st).
Proof.
  apply (order_of_steps_matters "x" (Step "x" "yz") (Step "y" "w"));
    reflexivity.
Defined.

(** C3, as stated, fails: the third step's replacement begins with its own
    anchor, so a second run on a text holding [old_timesheet_state] inserts
    the new state declarations once more. *)
Lemma second_run_changes_output :
  Pipeline.transform Script.old_timesheet_state = Script.new_timesheet_state
  /\ String.length (Pipeline.transform Script.new_timesheet_state)
     = String.length Script.new_timesheet_state + 303
  /\ Pipeline.transform (Pipeline.transform Script.old_timesheet_state)
     <> Pipeline.transform Script.old_timesheet_state.
Proof.
  split; [vm_compute; reflexivity|].
  split; [vm_compute; reflexivity|].
  intros H. apply String.eqb_eq in H. vm_compute in H. discriminate.
Qed.

Example third_replacement_starts_with_anchor :
  startswith Script.new_timesheet_state Script.old_timesheet_state = true.
Proof. vm_compute. reflexivity. Qed.

(** C3 (amended): a second run of the seven steps gives the same text as
    the first whenever none of the seven anchors occurs in the output of
    the first run. *)
Theorem second_run_fixed_without_anchors (s : string) :
  Pipeline.anchor_free (Pipeline.transform s) = true ->
  Pipeline.transform (Pipeline.transform s) = Pipeline.transform s.
Proof.
  intros H. rewrite (transform_is_run (Pipeline.transform s)).
  now apply run_without_anchors.
Qed.

Lemma second_run_fixed_without_anchors_witness :
  Pipeline.transform Script.old_imports = Script.new_imports
  /\ Pipeline.transform (Pipeline.transform Script.old_imports)
     = Pipeline.transform Script.old_imports.
Proof.
  split; [vm_compute; reflexivity|].
  apply (second_run_fixed_without_anchors Script.old_imports).
  vm_compute. reflexivity.
Defined.

(** ** File transaction *)

Section Transaction.
Import TextIO.

(** Printing touches nothing but standard output. *)
Lemma print_lines_frame (lines : list string) (w : world) :
  disk (snd (print_lines lines w)) = disk w
  /\ storage (snd (print_lines lines w)) = storage w
  /\ console (snd (print_lines lines w)) = console w.
Proof.
  revert w; induction lines as [|l ls IH]; intros w; [now repeat split|].
  cbn [print_lines]. unfold bind, print.
  destruct (console w l); [|now repeat split].
  destruct (IH (World (disk w) (storage w) (console w) (stdout w ++ [l])))
    as [D [M C]].
  now rewrite D, M, C.
Qed.

Lemma print_lines_accepted (lines : list string) (w : world) :
  forallb (console w) lines = true ->
  print_lines lines w
  = (Ok tt, World (disk w) (storage w) (console w) (stdout w ++ lines)).
Proof.
  revert w; induction lines as [|l ls IH]; intros w H.
  - destruct w; simpl. now rewrite app_nil_r.
  - simpl in H. apply andb_true_iff in H as [Hl Hls].
    cbn [print_lines]. unfold bind, print. rewrite Hl, IH by exact Hls.
    simpl. now rewrite <- app_assoc.
Qed.

Lemma print_lines_refused (lines : list string) (w : world) :
  forallb (console w) lines = false ->
  fst (print_lines lines w) = Raise PrintFailure.
Proof.
  revert w; induction lines as [|l ls IH]; intros w H; [discriminate|].
  simpl in H. cbn [print_lines]. unfold bind, print.
  destruct (console w l) eqn:Hl; [|reflexivity].
  simpl in H. now apply IH.
Qed.

(** The transaction, case by case on the world it starts in. *)
Lemma execute_cases (os : platform) (steps : list step) (w : world) :
  execute os steps w =
  match disk w with
  | None => (Raise ReadFailure, w)
  | Some f =>
      if readable f then
        if writable f then
          let out := write_newlines os (run (universal_newlines (data f)) steps) in
          match storage w with
          | Accepts =>
              print_lines Script.banner
                (World (Some (File out (readable f) (writable f)))
                       (storage w) (console w) (stdout w))
          | FailsAfter n =>
              (Raise WriteFailure,
               World (Some (File (take n out) (readable f) (writable f)))
                     (storage w) (console w) (stdout w))
          end
        else (Raise WriteFailure, w)
      else (Raise ReadFailure, w)
  end.
Proof.
  unfold execute, bind, read_text.
  destruct (disk w) as [[d r wr]|] eqn:D; [|reflexivity].
  cbn [data readable writable].
  destruct r; [|reflexivity].
  unfold open_write. rewrite D. cbn [data readable writable].
  destruct wr; [|reflexivity].
  unfold write_text.
  cbn [disk storage console stdout option_map readable writable].
  destruct (storage w) eqn:M; [|reflexivity].
  destruct (print_lines Script.banner _) as [[[]|e] w'] eqn:P; reflexivity.
Qed.

Lemma main_is_execute (os : platform) (w : world) :
  main os w = execute os Pipeline.steps w.
Proof. reflexivity. Qed.

(** Once the write is through, the file holds the transformed text,
    whatever becomes of the banner. *)
Lemma execute_written (os : platform) (steps : list step) (w : world) (f : file) :
  disk w = Some f ->
  readable f = true ->
  writable f = true ->
  storage w = Accepts ->
  disk (snd (execute os steps w))
  = Some (File (write_newlines os (run (universal_newlines (data f)) steps))
               true true).
Proof.
  intros D R W M. rewrite execute_cases, D, R, W, M. cbn zeta.
  now rewrite (proj1 (print_lines_frame _ _)).
Qed.

Lemma execute_printed (os : platform) (steps : list step) (w : world) (f : file) :
  disk w = Some f ->
  readable f = true ->
  writable f = true ->
  storage w = Accepts ->
  forallb (console w) Script.banner = true ->
  execute os steps w
  = (Ok tt,
     World (Some (File (write_newlines os
                          (run (universal_newlines (data f)) steps))
                       true true))
           Accepts (console w) (stdout w ++ Script.banner)).
Proof.
  intros D R W M C. rewrite execute_cases, D, R, W, M. cbn zeta.
  now rewrite print_lines_accepted.
Qed.

Lemma write_newlines_posix (s : string) : write_newlines Posix s = s.
Proof.
  induction s as [|c s IH]; [reflexivity|]. cbn [write_newlines].
  destruct (Ascii.eqb c LF) eqn:E.
  - apply Ascii.eqb_eq in E; subst c. simpl. now rewrite IH.
  - now rewrite IH.
Qed.

Lemma universal_newlines_no_cr (s : string) :
  contains s cr = false -> universal_newlines s = s.
Proof.
  induction s as [|c s IH]; intros H; [reflexivity|].
  apply contains_false_find in H. apply find_cons_none in H as [Hc Hs].
  unfold cr in Hc. cbn [startswith] in Hc.
  rewrite andb_true_r, Ascii.eqb_sym in Hc.
  change (ascii_of_nat 13) with CR in Hc.
  cbn [universal_newlines]. rewrite Hc. f_equal.
  apply IH. unfold contains. now rewrite Hs.
Qed.

(** C5, as stated, fails: a file with a carriage-return line ending is
    read with the line ending turned into a line feed, and written back
    that way. *)
Lemma empty_run_changes_crlf_file :
  execute Posix [] (plain ("a" ++ cr ++ nl ++ "b"))
  = (Ok tt, World (Some (File ("a" ++ nl ++ "b") true true))
                  Accepts utf8_console Script.banner)
  /\ option_map data (disk (snd (execute Posix [] (plain ("a" ++ cr ++ nl ++ "b")))))
     <> Some ("a" ++ cr ++ nl ++ "b").
Proof. split; [reflexivity | discriminate]. Qed.

(** C5 (amended): for a readable file that can be written, the transaction
    with an empty step list writes back the original content with the
    text-mode newline translations applied (carriage return plus line feed,
    or a lone carriage return, read as a line feed; a line feed written as
    the platform's line separator); when the separator is a line feed and
    the file holds no carriage return, the content written is identical to
    the original.  The transaction returns normally when standard output
    takes the banner. *)
Theorem empty_run_round_trip (os : platform) (w : world) (f : file) :
  disk w = Some f ->
  readable f = true ->
  writable f = true ->
  storage w = Accepts ->
  option_map data (disk (snd (execute os [] w)))
  = Some (write_newlines os (universal_newlines (data f)))
  /\ (os = Posix -> contains (data f) cr = false ->
      option_map data (disk (snd (execute os [] w))) = Some (data f))
  /\ (forallb (console w) Script.banner = true ->
      fst (execute os [] w) = Ok tt).
Proof.
  intros D R W M. rewrite (execute_written os [] w f D R W M).
  cbn [option_map data run fold_left].
  split; [reflexivity|]. split.
  - intros -> Hcr. now rewrite write_newlines_posix, universal_newlines_no_cr.
  - intros C. now rewrite (execute_printed os [] w f D R W M C).
Qed.

Lemma empty_run_round_trip_witness :
  option_map data (disk (snd (execute Posix [] (plain (text ["A"; "B"; "C"])))))
  = Some (write_newlines Posix (universal_newlines (text ["A"; "B"; "C"])))
  /\ (Posix = Posix -> contains (text ["A"; "B"; "C"]) cr = false ->
      option_map data (disk (snd (execute Posix [] (plain (text ["A"; "B"; "C"])))))
      = Some (text ["A"; "B"; "C"]))
  /\ (forallb utf8_console Script.banner = true ->
      fst (execute Posix [] (plain (text ["A"; "B"; "C"]))) = Ok tt).
Proof.
  apply (empty_run_round_trip Posix (plain (text ["A"; "B"; "C"]))
           (File (text ["A"; "B"; "C"]) true true)); reflexivity.
Defined.

(** C6: when the file is missing or cannot be read, the transaction raises
    the read failure and leaves the world as it was, whatever the step
    list: nothing is written, nothing is printed, and the steps have no
    part in the outcome. *)
Theorem read_failure_leaves_world (os : platform) (w : world) :
  (disk w = None \/ exists f, disk w = Some f /\ readable f = false) ->
  main os w = (Raise ReadFailure, w)
  /\ forall steps, execute os steps w = (Raise ReadFailure, w).
Proof.
  intros H.
  assert (G : forall steps, execute os steps w = (Raise ReadFailure, w)).
  { intros steps. rewrite execute_cases.
    destruct H as [-> | [f [-> ->]]]; reflexivity. }
  split; [rewrite main_is_execute|]; apply G.
Qed.

Lemma read_failure_leaves_world_witness :
  main Posix (World None Accepts utf8_console [])
  = (Raise ReadFailure, World None Accepts utf8_console [])
  /\ forall steps,
       execute Posix steps (World None Accepts utf8_console [])
       = (Raise ReadFailure, World None Accepts utf8_console []).
Proof.
  apply (read_failure_leaves_world Posix (World None Accepts utf8_console [])).
  left; reflexivity.
Defined.

Example read_failure_unreadable_example :
  main Windows (World (Some (File "A" false true)) Accepts utf8_console [])
  = (Raise ReadFailure,
     World (Some (File "A" false true)) Accepts utf8_console []).
Proof. reflexivity. Qed.

(** C7, as stated, fails: the banner holds characters that an ASCII
    standard output cannot encode, so after the write has completed the
    first [print] raises and the run does not report success. *)
Lemma banner_refused_after_write :
  main Posix (World (Some (File Script.old_imports true true))
                    Accepts ascii_console [])
  = (Raise PrintFailure,
     World (Some (File Script.new_imports true true))
           Accepts ascii_console []).
Proof. vm_compute. reflexivity. Qed.

(** C7 (amended): once the write has completed, the file holds the
    transformed text, and the transaction returns normally with the fixed
    banner printed when standard output takes the banner's lines, and
    raises from [print] when it does not; which of the two happens is
    decided by standard output alone, for every file content and every
    step list: neither the value returned nor the lines printed tell
    whether any anchor matched. *)
Theorem report_ignores_matches
    (os : platform) (steps : list step) (w : world) (f : file) :
  disk w = Some f ->
  readable f = true ->
  writable f = true ->
  storage w = Accepts ->
  option_map data (disk (snd (execute os steps w)))
  = Some (write_newlines os (run (universal_newlines (data f)) steps))
  /\ (forallb (console w) Script.banner = true ->
      fst (execute os steps w) = Ok tt
      /\ stdout (snd (execute os steps w)) = (stdout w ++ Script.banner)%list
      /\ fst (main os w) = Ok tt
      /\ stdout (snd (main os w)) = (stdout w ++ Script.banner)%list)
  /\ (forallb (console w) Script.banner = false ->
      fst (execute os steps w) = Raise PrintFailure
      /\ fst (main os w) = Raise PrintFailure).
Proof.
  intros D R W M. split; [|split].
  - now rewrite (execute_written os steps w f D R W M).
  - intros C. rewrite main_is_execute.
    rewrite (execute_printed os steps w f D R W M C).
    rewrite (execute_printed os Pipeline.steps w f D R W M C).
    repeat split.
  - intros C. rewrite main_is_execute, !execute_cases, D, R, W, M. cbn zeta.
    split; now apply print_lines_refused.
Qed.

Lemma report_ignores_matches_witness :
  (fst (main Posix (plain "nothing to patch")) = Ok tt
   /\ stdout (snd (main Posix (plain "nothing to patch"))) = Script.banner)
  /\ (fst (main Posix (plain Script.old_imports)) = Ok tt
      /\ stdout (snd (main Posix (plain Script.old_imports))) = Script.banner)
  /\ fst (main Posix (World (Some (File "nothing to patch" true true))
                            Accepts ascii_console []))
     = Raise PrintFailure.
Proof.
  split; [|split].
  - apply (proj1 (proj2 (report_ignores_matches Posix Pipeline.steps
                           (plain "nothing to patch")
                           (File "nothing to patch" true true)
                           eq_refl eq_refl eq_refl eq_refl))).
    reflexivity.
  - apply (proj1 (proj2 (report_ignores_matches Posix Pipeline.steps
                           (plain Script.old_imports)
                           (File Script.old_imports true true)
                           eq_refl eq_refl eq_refl eq_refl))).
    reflexivity.
  - apply (proj2 (proj2 (report_ignores_matches Posix Pipeline.steps
                           (World (Some (File "nothing to patch" true true))
                                  Accepts ascii_console [])
                           (File "nothing to patch" true true)
                           eq_refl eq_refl eq_refl eq_refl))).
    reflexivity.
Defined.

(** C8, as stated, fails: the file is truncated when it is opened for
    writing, so a failure of the write that follows leaves a prefix of the
    new content on disk, not the original. *)
Lemma failed_write_leaves_partial_file :
  main Posix (World (Some (File "AB" true true)) (FailsAfter 1) utf8_console [])
  = (Raise WriteFailure,
     World (Some (File "A" true true)) (FailsAfter 1) utf8_console [])
  /\ option_map data
       (disk (snd (main Posix
                     (World (Some (File "AB" true true)) (FailsAfter 1)
                            utf8_console []))))
     <> Some "AB".
Proof. split; [vm_compute; reflexivity | vm_compute; discriminate]. Qed.

(** C8 (amended): for a readable file, when opening it for writing fails
    the transaction raises the write failure and the world, the file
    included, is as it was; when the failure comes after the file was
    opened, the file has been truncated and holds only the bytes stored
    before the error, a prefix of the transformed content.  In both cases
    nothing is printed. *)
Theorem write_failure_effects
    (os : platform) (steps : list step) (w : world) (f : file) :
  disk w = Some f ->
  readable f = true ->
  (writable f = false -> execute os steps w = (Raise WriteFailure, w))
  /\ (writable f = true -> forall n, storage w = FailsAfter n ->
      fst (execute os steps w) = Raise WriteFailure
      /\ option_map data (disk (snd (execute os steps w)))
         = Some (take n (write_newlines os
                           (run (universal_newlines (data f)) steps)))
      /\ stdout (snd (execute os steps w)) = stdout w).
Proof.
  intros D R. split.
  - intros W. now rewrite execute_cases, D, R, W.
  - intros W n M. rewrite execute_cases, D, R, W, M. cbn zeta.
    repeat split.
Qed.

Lemma write_failure_effects_witness :
  execute Posix Pipeline.steps
    (World (Some (File "AB" true false)) Accepts utf8_console [])
  = (Raise WriteFailure,
     World (Some (File "AB" true false)) Accepts utf8_console [])
  /\ option_map data
       (disk (snd (execute Posix Pipeline.steps
                     (World (Some (File "AB" true true)) (FailsAfter 1)
                            utf8_console []))))
     = Some (take 1 (write_newlines Posix
                       (run (universal_newlines "AB") Pipeline.steps))).
Proof.
  split.
  - apply (proj1 (write_failure_effects Posix Pipeline.steps
                    (World (Some (File "AB" true false)) Accepts utf8_console [])
                    (File "AB" true false) eq_refl eq_refl)).
    reflexivity.
  - apply (proj2 (write_failure_effects Posix Pipeline.steps
                    (World (Some (File "AB" true true)) (FailsAfter 1)
                           utf8_console [])
                    (File "AB" true true) eq_refl eq_refl) eq_refl 1 eq_refl).
Defined.

Lemma success_conditions (os : platform) (steps : list step) (w : world) :
  fst (execute os steps w) = Ok tt ->
  exists f, disk w = Some f /\ readable f = true /\ writable f = true
            /\ storage w = Accepts
            /\ forallb (console w) Script.banner = true.
Proof.
  rewrite execute_cases.
  destruct (disk w) as [f|]; [|discriminate].
  destruct (readable f) eqn:R; [|discriminate].
  destruct (writable f) eqn:W; [|discriminate].
  destruct (storage w); [|discriminate].
  cbn zeta. intros P. exists f.
  split; [reflexivity|]. split; [exact R|]. split; [exact W|].
  split; [reflexivity|].
  destruct (forallb (console w) Script.banner) eqn:C; [reflexivity|].
  rewrite print_lines_refused in P by exact C. discriminate.
Qed.

End Transaction.

(** * Further properties of the script *)

(** ** Length and characters of a rewritten buffer *)

Section Measure.

Lemma has_char_app (a b : string) (c : ascii) :
  has_char (a ++ b) c = has_char a c || has_char b c.
Proof.
  induction a as [|x a IH]; simpl; [reflexivity|].
  now rewrite IH, orb_assoc.
Qed.

Lemma has_char_replace_scan (c : ascii) (old new : string) (k : nat) (s : string) :
  has_char s c = false -> has_char new c = false ->
  has_char (replace_scan k s old new) c = false.
Proof.
  intros Hs Hn. revert k Hs; induction s as [|a s IH]; intros k Hs.
  - reflexivity.
  - simpl in Hs. apply orb_false_iff in Hs as [Ha Hs].
    destruct k as [|k]; cbn [replace_scan]; [|now apply IH].
    destruct (startswith (String a s) old).
    + rewrite has_char_app, Hn. now apply IH.
    + simpl. rewrite Ha. now apply IH.
Qed.

Lemma has_char_interleave (c : ascii) (new s : string) :
  has_char s c = false -> has_char new c = false ->
  has_char (interleave s new) c = false.
Proof.
  intros Hs Hn. induction s as [|a s IH]; [exact Hn|].
  simpl in Hs. apply orb_false_iff in Hs as [Ha Hs].
  cbn [interleave]. destruct (is_continuation a).
  - simpl. rewrite Ha. now apply IH.
  - rewrite has_char_app, Hn. simpl. rewrite Ha. now apply IH.
Qed.

End Measure.

(** X1: for a non-empty anchor met [n] times by the scan ([n] is one less
    than the number of pieces of the split), the rewritten buffer has the
    length of the buffer with [n] anchors taken out and [n] replacements
    put in. *)
Theorem replace_length (s old new : string) :
  old <> EmptyString ->
  String.length (replace s old new)
  + (List.length (split s old) - 1) * String.length old
  = String.length s
    + (List.length (split s old) - 1) * String.length new.
Proof.
  intros Hne.
  pose proof (f_equal String.length (join_split_scan old Hne 0 s)) as J.
  pose proof (f_equal String.length (join_replace_scan old new 0 s)) as R.
  change (drop 0 s) with s in J. unfold pieces in J, R.
  rewrite length_join in J, R.
  rewrite (replace_nonempty _ new Hne), split_cons.
  cbn [List.length]. rewrite Nat.sub_succ, Nat.sub_0_r. lia.
Qed.

Lemma replace_length_witness :
  String.length (replace "xabyabz" "ab" "QQQ") + 2 * 2 = 7 + 2 * 3.
Proof.
  apply (replace_length "xabyabz" "ab" "QQQ"). discriminate.
Defined.

Lemma has_char_run (c : ascii) (steps : list step) (s : string) :
  has_char s c = false ->
  forallb (fun st => negb (has_char (replacement st) c)) steps = true ->
  has_char (run s steps) c = false.
Proof.
  revert s; induction steps as [|st rest IH]; intros s Hs H; [exact Hs|].
  simpl in H. apply andb_true_iff in H as [Hst Hrest].
  apply negb_true_iff in Hst. simpl. apply IH; [|exact Hrest].
  unfold apply_step, replace. destruct (anchor st).
  - now apply has_char_interleave.
  - now apply has_char_replace_scan.
Qed.

(** X2: an ASCII character that occurs neither in the buffer nor in any
    replacement of the step list does not occur in the buffer the run
    returns, whatever the anchors are. *)
Theorem run_adds_no_new_character (c : ascii) (steps : list step) (s : string) :
  is_ascii c = true ->
  has_char s c = false ->
  forallb (fun st => negb (has_char (replacement st) c)) steps = true ->
  has_char (run s steps) c = false.
Proof. intros _ Hs H. now apply has_char_run. Qed.

Lemma run_adds_no_new_character_witness :
  has_char (run "a-b" [Step "-" "+"; Step EmptyString "é"]) "z"%char = false.
Proof.
  apply (run_adds_no_new_character "z"%char
           [Step "-" "+"; Step EmptyString "é"] "a-b"); reflexivity.
Defined.

(** ** When a step removes its anchor for good *)

Section Overlap.

Variables old new : string.

Lemma startswith_app_cases (x y p : string) :
  startswith (x ++ y) p = true ->
  startswith x p = true
  \/ (startswith p x = true /\ startswith y (drop (String.length x) p) = true).
Proof.
  revert p; induction x as [|b x IH]; intros p H.
  - right. split; [reflexivity|]. now destruct p.
  - destruct p as [|a p]; [now left|].
    simpl in H. apply andb_true_iff in H as [Hab Hp].
    destruct (IH _ Hp) as [Hx | [Hx Hy]].
    + left. simpl. now rewrite Hab, Hx.
    + right. simpl. rewrite Ascii.eqb_sym, Hab, Hx. now split.
Qed.

Lemma startswith_refl (x : string) : startswith x x = true.
Proof. induction x as [|c x IH]; simpl; [|rewrite Ascii.eqb_refl]; auto. Qed.

Lemma no_suffix_comparable_drop (t p : string) (k : nat) :
  no_suffix_comparable t p = true ->
  drop k t <> EmptyString ->
  comparable (drop k t) p = false.
Proof.
  revert k; induction t as [|c t IH]; intros k H Hk.
  - now destruct k.
  - simpl in H. apply andb_true_iff in H as [Hc Ht].
    destruct k as [|k]; [now apply negb_true_iff in Hc|].
    simpl. now apply IH.
Qed.

(** No occurrence of the anchor begins inside a copy of the replacement. *)
Lemma free_after_replacement (n t : string) :
  no_suffix_comparable n old = true ->
  contains t old = false ->
  contains (n ++ t) old = false.
Proof.
  induction n as [|c n IH]; intros Hn Ht; [exact Ht|].
  simpl in Hn. apply andb_true_iff in Hn as [Hc Hn].
  apply negb_true_iff in Hc. unfold comparable in Hc.
  apply orb_false_iff in Hc as [H1 H2].
  change (String c n ++ t) with (String c (n ++ t)).
  apply contains_cons_intro; [|now apply IH].
  destruct (startswith (String c (n ++ t)) old) eqn:E; [|reflexivity].
  change (String c (n ++ t)) with (String c n ++ t) in E.
  apply startswith_app_cases in E as [E | [E _]]; congruence.
Qed.

(** No occurrence begins in a piece and runs on into the replacement. *)
Lemma free_before_replacement (a : ascii) (old' g t : string) :
  old = String a old' ->
  no_suffix_comparable old' new = true ->
  contains g old = false ->
  contains (new ++ t) old = false ->
  contains (g ++ new ++ t) old = false.
Proof.
  intros Hold Hc. induction g as [|b g IH]; intros Hg Ht; [exact Ht|].
  apply contains_cons_false in Hg as [Hb Hg].
  change (String b g ++ new ++ t) with (String b (g ++ new ++ t)).
  apply contains_cons_intro; [|now apply IH].
  destruct (startswith (String b (g ++ new ++ t)) old) eqn:E; [|reflexivity].
  change (String b (g ++ new ++ t)) with (String b g ++ new ++ t) in E.
  apply startswith_app_cases in E as [E | [E1 E2]]; [congruence|].
  rewrite Hold in E2. cbn [String.length drop] in E2.
  assert (Hq : drop (String.length g) old' <> EmptyString).
  { intros Hq. pose proof (startswith_split _ _ E1) as S.
    rewrite Hold in S at 2. cbn [String.length drop] in S.
    rewrite Hq, append_empty_r in S.
    rewrite <- S, startswith_refl in Hb. discriminate. }
  pose proof (no_suffix_comparable_drop _ _ _ Hc Hq) as Hcmp.
  unfold comparable in Hcmp. apply orb_false_iff in Hcmp as [C1 C2].
  apply startswith_app_cases in E2 as [E2 | [E2 _]]; congruence.
Qed.

Lemma join_stays_free (g : string) (gs : list string) :
  junction_safe old new = true ->
  Forall (fun x => contains x old = false) (g :: gs) ->
  contains (join new (g :: gs)) old = false.
Proof.
  unfold junction_safe. destruct old as [|a old'] eqn:Hold; [discriminate|].
  rewrite <- Hold in *. intros H. apply andb_true_iff in H as [Hn Ho].
  revert g; induction gs as [|g' gs IH]; intros g F.
  - now inversion F.
  - inversion F as [|? ? Hg Hrest]; subst x l.
    change (join new (g :: g' :: gs)) with (g ++ new ++ join new (g' :: gs)).
    apply (free_before_replacement a old'); auto.
    apply free_after_replacement; auto.
Qed.

End Overlap.

Lemma safe_pair_removes_anchor (s old new : string) :
  junction_safe old new = true ->
  contains (replace s old new) old = false.
Proof.
  intros H.
  assert (Hne : old <> EmptyString).
  { intros E. unfold junction_safe in H. now rewrite E in H. }
  rewrite (replace_nonempty _ _ Hne), <- join_replace_scan.
  apply join_stays_free; [exact H|]. now apply split_scan_free.
Qed.

(** X3: when the (anchor, replacement) pair passes the overlap test
    [junction_safe], the rewritten buffer contains no occurrence of the
    anchor, for every buffer; rewriting it again changes nothing. *)
Theorem safe_step_removes_anchor (s : string) (st : step) :
  junction_safe (anchor st) (replacement st) = true ->
  contains (apply_step s st) (anchor st) = false
  /\ apply_step (apply_step s st) st = apply_step s st.
Proof.
  intros H.
  pose proof (safe_pair_removes_anchor s _ _ H) as C.
  split; [exact C|]. unfold apply_step at 1. now apply replace_absent.
Qed.

Lemma safe_step_removes_anchor_witness :
  contains (apply_step "xabyabz" (Step "ab" "cd")) "ab" = false
  /\ apply_step (apply_step "xabyabz" (Step "ab" "cd")) (Step "ab" "cd")
     = apply_step "xabyabz" (Step "ab" "cd").
Proof.
  apply (safe_step_removes_anchor "xabyabz" (Step "ab" "cd")). reflexivity.
Defined.

(** The test rejects the pair whose replacement rebuilds the anchor with
    the text before it. *)
Example junction_test_rejects :
  junction_safe "ab" "b" = false /\ junction_safe "ab" "cd" = true.
Proof. split; reflexivity. Qed.

(** X4: every step of the script other than the third removes its anchor
    from every buffer and is idempotent on every buffer. *)
Theorem script_step_idempotent (s : string) (st : step) :
  In st Pipeline.steps ->
  st <> Step Script.old_timesheet_state Script.new_timesheet_state ->
  contains (apply_step s st) (anchor st) = false
  /\ apply_step (apply_step s st) st = apply_step s st.
Proof.
  intros Hin Hneq.
  assert (C : contains (apply_step s st) (anchor st) = false).
  { apply safe_pair_removes_anchor.
    unfold Pipeline.steps in Hin. simpl in Hin.
    destruct Hin as [<-|[<-|[<-|[<-|[<-|[<-|[<-|[]]]]]]]];
      try (vm_compute; reflexivity).
    congruence. }
  split; [exact C|]. unfold apply_step at 1. now apply replace_absent.
Qed.

Lemma script_step_idempotent_witness :
  contains (apply_step (Script.old_imports ++ nl ++ Script.old_imports)
              (Step Script.old_imports Script.new_imports))
           Script.old_imports = false
  /\ apply_step
       (apply_step (Script.old_imports ++ nl ++ Script.old_imports)
          (Step Script.old_imports Script.new_imports))
       (Step Script.old_imports Script.new_imports)
     = apply_step (Script.old_imports ++ nl ++ Script.old_imports)
         (Step Script.old_imports Script.new_imports).
Proof.
  apply (script_step_idempotent
           (Script.old_imports ++ nl ++ Script.old_imports)
           (Step Script.old_imports Script.new_imports)).
  - left; reflexivity.
  - intros H. apply (f_equal anchor) in H. apply String.eqb_eq in H.
    vm_compute in H. discriminate.
Defined.

(** C9: for every buffer and every step of the script whose replacement
    does not contain its anchor (every step but the third), the buffer the
    step returns contains no occurrence of the anchor: every occurrence,
    not just the first, is replaced.  The buffer is the anchor-free pieces
    of the split joined by the anchor, and the returned buffer is the same
    pieces joined by the replacement. *)
Theorem script_step_leaves_no_anchor (s : string) (st : step) :
  In st Pipeline.steps ->
  contains (replacement st) (anchor st) = false ->
  contains (apply_step s st) (anchor st) = false
  /\ join (anchor st) (split s (anchor st)) = s
  /\ Forall (fun g => contains g (anchor st) = false) (split s (anchor st))
  /\ apply_step s st = join (replacement st) (split s (anchor st)).
Proof.
  intros Hin Hc.
  assert (J : junction_safe (anchor st) (replacement st) = true).
  { unfold Pipeline.steps in Hin. simpl in Hin.
    destruct Hin as [<-|[<-|[<-|[<-|[<-|[<-|[<-|[]]]]]]]];
      try (vm_compute; reflexivity).
    exfalso. vm_compute in Hc. discriminate. }
  assert (Hne : anchor st <> EmptyString).
  { intros E. unfold junction_safe in J. now rewrite E in J. }
  split; [now apply safe_pair_removes_anchor|].
  unfold split, apply_step.
  split; [now rewrite join_split_scan|].
  split; [now apply split_scan_free|].
  now rewrite (replace_nonempty _ _ Hne), join_replace_scan.
Qed.

Lemma script_step_leaves_no_anchor_witness :
  contains (apply_step (Script.old_imports ++ "x" ++ Script.old_imports)
              (Step Script.old_imports Script.new_imports))
           Script.old_imports = false
  /\ apply_step (Script.old_imports ++ "x" ++ Script.old_imports)
       (Step Script.old_imports Script.new_imports)
     = Script.new_imports ++ "x" ++ Script.new_imports.
Proof.
  destruct (script_step_leaves_no_anchor
              (Script.old_imports ++ "x" ++ Script.old_imports)
              (Step Script.old_imports Script.new_imports))
    as [H _].
  - left; reflexivity.
  - vm_compute. reflexivity.
  - split; [exact H | vm_compute; reflexivity].
Defined.

(** ** Growth of the text *)

Section Growth.

Lemma grows_spec (st : step) :
  grows st = true ->
  anchor st <> EmptyString
  /\ String.length (anchor st) < String.length (replacement st).
Proof.
  unfold grows. intros H. apply andb_true_iff in H as [H0 H1].
  apply Nat.ltb_lt in H0, H1. split; [|exact H1].
  intros E. rewrite E in H0. simpl in H0. lia.
Qed.

Lemma split_single_absent (s old new : string) :
  old <> EmptyString ->
  List.length (split s old) = 1 ->
  replace s old new = s.
Proof.
  intros Hne Hlen.
  pose proof (join_split_scan old Hne 0 s) as J.
  pose proof (join_replace_scan old new 0 s) as R.
  rewrite (replace_nonempty _ new Hne), <- R.
  change (drop 0 s) with s in J. rewrite <- J at 2.
  rewrite split_cons in Hlen. unfold pieces.
  destruct (snd (split_scan 0 s old)); [reflexivity | discriminate].
Qed.

Lemma growing_step (s : string) (st : step) :
  grows st = true ->
  String.length s <= String.length (apply_step s st)
  /\ (String.length (apply_step s st) = String.length s ->
      apply_step s st = s).
Proof.
  intros G. destruct (grows_spec _ G) as [Hne Hlt].
  pose proof (replace_nonempty (anchor st) (replacement st) Hne s) as E.
  pose proof (f_equal String.length
                (join_split_scan (anchor st) Hne 0 s)) as J.
  pose proof (f_equal String.length
                (join_replace_scan (anchor st) (replacement st) 0 s)) as R.
  change (drop 0 s) with s in J. unfold pieces in J, R.
  rewrite length_join in J, R. unfold apply_step. rewrite E.
  split; [nia|].
  intros Hlen. rewrite <- E. apply split_single_absent; [exact Hne|].
  rewrite split_cons. cbn [List.length]. f_equal. nia.
Qed.

Lemma growing_run (steps : list step) (s : string) :
  forallb grows steps = true ->
  String.length s <= String.length (run s steps)
  /\ (String.length (run s steps) = String.length s -> run s steps = s).
Proof.
  revert s; induction steps as [|st rest IH]; intros s H.
  - simpl. auto.
  - simpl in H. apply andb_true_iff in H as [Hst Hrest].
    destruct (growing_step s st Hst) as [L1 E1].
    destruct (IH (apply_step s st) Hrest) as [L2 E2].
    cbn [run fold_left] in *. fold (run (apply_step s st) rest) in *.
    split; [lia|].
    intros Hlen.
    assert (Ha : apply_step s st = s) by (apply E1; lia).
    rewrite E2 by lia. exact Ha.
Qed.

End Growth.

(** X5: the seven steps never shorten the text, and the text they return
    has the length of the text they were given only when it is that very
    text (no step matched). *)
Theorem transform_never_shortens (s : string) :
  String.length s <= String.length (Pipeline.transform s)
  /\ (String.length (Pipeline.transform s) = String.length s ->
      Pipeline.transform s = s).
Proof.
  rewrite transform_is_run. apply growing_run. vm_compute. reflexivity.
Qed.

(** X6: a step whose replacement is its anchor returns every buffer as it
    is, whether the anchor occurs or not, the empty anchor included. *)
Theorem identity_step (s a : string) : apply_step s (Step a a) = s.
Proof.
  unfold apply_step. cbn [anchor replacement].
  destruct a as [|c a].
  - cbn [replace]. induction s as [|x s IH]; [reflexivity|].
    cbn [interleave]. destruct (is_continuation x); simpl; now rewrite IH.
  - assert (Hne : String c a <> EmptyString) by discriminate.
    rewrite (replace_nonempty _ _ Hne), <- join_replace_scan.
    now rewrite join_split_scan.
Qed.

(** X7: an empty buffer stays empty through every run whose anchors are
    all non-empty. *)
Theorem empty_buffer_stays_empty (steps : list step) :
  Forall (fun st => anchor st <> EmptyString) steps ->
  run EmptyString steps = EmptyString.
Proof.
  induction 1 as [|st rest Hst _ IH]; [reflexivity|].
  simpl. unfold apply_step at 1.
  rewrite (replace_nonempty _ _ Hst). exact IH.
Qed.

Lemma empty_buffer_stays_empty_witness :
  run EmptyString Pipeline.steps = EmptyString.
Proof.
  apply (empty_buffer_stays_empty Pipeline.steps).
  repeat constructor; intros H; apply (f_equal String.length) in H;
    vm_compute in H; discriminate.
Defined.


(** ** Line endings *)

Section Newlines.
Import TextIO.

Lemma universal_newlines_free_upto (n : nat) (s : string) :
  String.length s <= n -> has_char (universal_newlines s) CR = false.
Proof.
  revert s; induction n as [|n IH]; intros s Hn.
  - destruct s; [reflexivity | simpl in Hn; lia].
  - destruct s as [|c s]; [reflexivity|].
    simpl in Hn. cbn [universal_newlines].
    destruct (Ascii.eqb c CR) eqn:E.
    + destruct s as [|c' s]; [reflexivity|].
      simpl in Hn. destruct (Ascii.eqb c' LF).
      * cbn [has_char]. rewrite IH by lia. reflexivity.
      * cbn [has_char]. rewrite IH by (simpl; lia). reflexivity.
    + cbn [has_char]. rewrite E, IH by lia. reflexivity.
Qed.

Lemma universal_newlines_free (s : string) :
  has_char (universal_newlines s) CR = false.
Proof. now apply (universal_newlines_free_upto (String.length s)). Qed.

Lemma universal_newlines_fixed (s : string) :
  has_char s CR = false -> universal_newlines s = s.
Proof.
  induction s as [|c s IH]; intros H; [reflexivity|].
  simpl in H. apply orb_false_iff in H as [Hc Hs].
  cbn [universal_newlines]. rewrite Hc. f_equal. now apply IH.
Qed.

Lemma read_back (os : platform) (t : string) :
  has_char t CR = false ->
  universal_newlines (write_newlines os t) = t.
Proof.
  induction t as [|c t IH]; intros H; [reflexivity|].
  simpl in H. apply orb_false_iff in H as [Hc Ht].
  cbn [write_newlines]. destruct (Ascii.eqb c LF) eqn:E.
  - apply Ascii.eqb_eq in E; subst c.
    destruct os; simpl; now rewrite IH.
  - cbn [universal_newlines]. rewrite Hc. f_equal. now apply IH.
Qed.

Lemma transform_free (d : string) :
  has_char (Pipeline.transform (universal_newlines d)) CR = false.
Proof.
  rewrite transform_is_run. apply has_char_run.
  - apply universal_newlines_free.
  - vm_compute. reflexivity.
Qed.

(** C10, as stated, fails: the bytes written depend on the platform's
    line separator as well as on the file's content: the same file is
    written back unchanged on one platform and with carriage returns on
    the other. *)
Lemma same_content_different_platform :
  option_map data (disk (snd (main Posix (plain ("a" ++ nl ++ "b")))))
  = Some ("a" ++ nl ++ "b")
  /\ option_map data (disk (snd (main Windows (plain ("a" ++ nl ++ "b")))))
     = Some ("a" ++ cr ++ nl ++ "b")
  /\ option_map data (disk (snd (main Posix (plain ("a" ++ nl ++ "b")))))
     <> option_map data (disk (snd (main Windows (plain ("a" ++ nl ++ "b"))))).
Proof.
  split; [vm_compute; reflexivity|]. split; [vm_compute; reflexivity|].
  vm_compute. discriminate.
Qed.

(** C10 (amended): when the write completes, the content written is the
    seven steps applied to the text read, with line feeds written as the
    platform's line separator: it is a function of the file's initial
    content and of the platform.  Two runs on files with identical content
    on the same platform leave identical content, whatever the standard
    output and what was printed before; across platforms the contents
    differ at most in the line separator: read in text mode they are the
    same text. *)
Theorem output_determined_by_input_and_platform
    (os1 os2 : platform) (w1 w2 : world) (f1 f2 : file) :
  disk w1 = Some f1 ->
  disk w2 = Some f2 ->
  data f1 = data f2 ->
  readable f1 = true -> writable f1 = true -> storage w1 = Accepts ->
  readable f2 = true -> writable f2 = true -> storage w2 = Accepts ->
  option_map data (disk (snd (main os1 w1)))
  = Some (write_newlines os1
            (Pipeline.transform (universal_newlines (data f1))))
  /\ (os1 = os2 ->
      option_map data (disk (snd (main os1 w1)))
      = option_map data (disk (snd (main os2 w2))))
  /\ option_map (fun f => universal_newlines (data f))
       (disk (snd (main os1 w1)))
     = option_map (fun f => universal_newlines (data f))
         (disk (snd (main os2 w2))).
Proof.
  intros D1 D2 E R1 W1 M1 R2 W2 M2.
  rewrite !main_is_execute.
  rewrite (execute_written os1 Pipeline.steps w1 f1 D1 R1 W1 M1).
  rewrite (execute_written os2 Pipeline.steps w2 f2 D2 R2 W2 M2).
  cbn [option_map data]. rewrite <- E.
  change (run (universal_newlines (data f1)) Pipeline.steps)
    with (Pipeline.transform (universal_newlines (data f1))).
  split; [reflexivity|]. split; [now intros ->|].
  now rewrite !(read_back _ _ (transform_free (data f1))).
Qed.

Lemma output_determined_by_input_and_platform_witness :
  option_map data
    (disk (snd (main Posix (plain Script.old_imports))))
  = Some (write_newlines Posix
            (Pipeline.transform (universal_newlines Script.old_imports)))
  /\ (Posix = Windows ->
      option_map data (disk (snd (main Posix (plain Script.old_imports))))
      = option_map data
          (disk (snd (main Windows
                        (World (Some (File Script.old_imports true true))
                               Accepts ascii_console ["earlier output"])))))
  /\ option_map (fun f => universal_newlines (data f))
       (disk (snd (main Posix (plain Script.old_imports))))
     = option_map (fun f => universal_newlines (data f))
         (disk (snd (main Windows
                       (World (Some (File Script.old_imports true true))
                              Accepts ascii_console ["earlier output"])))).
Proof.
  apply (output_determined_by_input_and_platform Posix Windows
           (plain Script.old_imports)
           (World (Some (File Script.old_imports true true))
                  Accepts ascii_console ["earlier output"])
           (File Script.old_imports true true)
           (File Script.old_imports true true)); reflexivity.
Defined.


(** X8: the text handed over by the read holds no carriage return, for
    every file content, and translating it once more changes nothing. *)
Theorem read_text_has_no_carriage_return (s : string) :
  has_char (universal_newlines s) CR = false
  /\ universal_newlines (universal_newlines s) = universal_newlines s.
Proof.
  split; [apply universal_newlines_free|].
  apply universal_newlines_fixed, universal_newlines_free.
Qed.

(** X9: on either platform, a text without carriage returns that is
    written in text mode is read back in text mode as the same text. *)
Theorem write_then_read_round_trip (os : platform) (t : string) :
  has_char t CR = false ->
  universal_newlines (write_newlines os t) = t.
Proof. apply read_back. Qed.

Lemma write_then_read_round_trip_witness :
  write_newlines Windows (text ["A"; "B"]) = "A" ++ cr ++ nl ++ "B"
  /\ universal_newlines (write_newlines Windows (text ["A"; "B"]))
     = text ["A"; "B"].
Proof.
  split; [reflexivity|].
  apply (write_then_read_round_trip Windows (text ["A"; "B"])). reflexivity.
Defined.

(** X10: after a run of the script that returns normally on a platform
    whose line separator is a line feed, the file holds no carriage
    return: every line ending of the original has become a line feed. *)
Theorem posix_run_normalises_line_endings (w : world) :
  fst (main Posix w) = Ok tt ->
  exists f', disk (snd (main Posix w)) = Some f'
             /\ has_char (data f') CR = false.
Proof.
  intros S. rewrite main_is_execute in *.
  destruct (success_conditions _ _ _ S) as [f [D [R [W [M C]]]]].
  rewrite (execute_written Posix Pipeline.steps w f D R W M).
  eexists. split; [reflexivity|]. cbn [data].
  rewrite write_newlines_posix. apply transform_free.
Qed.

Lemma posix_run_normalises_line_endings_witness :
  exists f', disk (snd (main Posix (plain ("a" ++ cr ++ nl ++ "b" ++ cr)))) = Some f'
             /\ has_char (data f') CR = false.
Proof.
  apply (posix_run_normalises_line_endings
           (plain ("a" ++ cr ++ nl ++ "b" ++ cr))).
  reflexivity.
Defined.

(** X11: after a run of the script that returns normally, reading the file
    again gives exactly the text the run computed: the seven steps applied
    to the text first read. *)
Theorem reread_gives_transformed_text (os : platform) (w : world) (f : file) :
  disk w = Some f ->
  fst (main os w) = Ok tt ->
  fst (read_text (snd (main os w)))
  = Ok (Pipeline.transform (universal_newlines (data f))).
Proof.
  intros D S. rewrite main_is_execute in *.
  destruct (success_conditions _ _ _ S) as [g [G [R [W [M C]]]]].
  rewrite D in G; injection G as <-.
  pose proof (execute_written os Pipeline.steps w f D R W M) as E.
  unfold read_text. rewrite E. cbn [readable data fst].
  f_equal. apply read_back, transform_free.
Qed.

Lemma reread_gives_transformed_text_witness :
  fst (read_text (snd (main Windows (plain Script.old_imports))))
  = Ok (Pipeline.transform (universal_newlines Script.old_imports)).
Proof.
  apply (reread_gives_transformed_text Windows (plain Script.old_imports)
           (File Script.old_imports true true)); reflexivity.
Defined.

(** X12: on a platform whose line separator is a line feed, a run on a
    readable and writable file that contains none of the seven anchors and
    no carriage return leaves the file exactly as it was; when standard
    output takes the banner, the run returns normally and the printed
    banner is its only effect. *)
Theorem unrelated_file_untouched (w : world) (f : file) :
  disk w = Some f ->
  readable f = true ->
  writable f = true ->
  storage w = Accepts ->
  has_char (data f) CR = false ->
  Pipeline.anchor_free (data f) = true ->
  disk (snd (main Posix w)) = disk w
  /\ (forallb (console w) Script.banner = true ->
      main Posix w
      = (Ok tt, World (disk w) (storage w) (console w)
                      (stdout w ++ Script.banner))).
Proof.
  intros D R W M Hcr Hfree.
  assert (Hout : write_newlines Posix
                   (run (universal_newlines (data f)) Pipeline.steps)
                 = data f).
  { rewrite write_newlines_posix, (universal_newlines_fixed _ Hcr).
    now apply run_without_anchors. }
  rewrite main_is_execute. split.
  - rewrite (execute_written Posix Pipeline.steps w f D R W M), Hout, D.
    destruct f as [d r wr]. cbn [data readable writable] in *.
    now subst r wr.
  - intros C.
    rewrite (execute_printed Posix Pipeline.steps w f D R W M C), Hout, D, M.
    destruct f as [d r wr]. cbn [data readable writable] in *.
    now subst r wr.
Qed.

Lemma unrelated_file_untouched_witness :
  disk (snd (main Posix (plain (text ["A"; "B"; "C"]))))
  = Some (File (text ["A"; "B"; "C"]) true true)
  /\ (forallb utf8_console Script.banner = true ->
      main Posix (plain (text ["A"; "B"; "C"]))
      = (Ok tt, World (Some (File (text ["A"; "B"; "C"]) true true)) Accepts
                      utf8_console ([] ++ Script.banner))).
Proof.
  apply (unrelated_file_untouched (plain (text ["A"; "B"; "C"]))
           (File (text ["A"; "B"; "C"]) true true)); reflexivity.
Defined.

(** X13: when a run of the script returns normally and none of the seven
    anchors occurs in the text it computed, a second run on the file it
    left writes the same content again, on either platform. *)
Theorem second_run_on_file (os : platform) (w : world) (f : file) :
  disk w = Some f ->
  fst (main os w) = Ok tt ->
  Pipeline.anchor_free (Pipeline.transform (universal_newlines (data f))) = true ->
  fst (main os (snd (main os w))) = Ok tt
  /\ option_map data (disk (snd (main os (snd (main os w)))))
     = option_map data (disk (snd (main os w))).
Proof.
  intros D S Hfree. rewrite !main_is_execute in *.
  destruct (success_conditions _ _ _ S) as [g [G [R [W [M C]]]]].
  rewrite D in G; injection G as <-.
  rewrite (execute_printed os Pipeline.steps w f D R W M C). cbn [snd].
  set (out := write_newlines os
                (run (universal_newlines (data f)) Pipeline.steps)).
  set (w1 := World (Some (File out true true)) Accepts (console w)
                   (stdout w ++ Script.banner)).
  assert (E : execute os Pipeline.steps w1
              = (Ok tt, World (Some (File out true true)) Accepts (console w)
                              (stdout w1 ++ Script.banner))).
  { rewrite (execute_printed os Pipeline.steps w1 (File out true true)
               eq_refl eq_refl eq_refl eq_refl C).
    cbn [data console]. unfold out at 1.
    change (run (universal_newlines (data f)) Pipeline.steps)
      with (Pipeline.transform (universal_newlines (data f))).
    rewrite (read_back os _ (transform_free (data f))).
    now rewrite (run_without_anchors _ _ Hfree). }
  rewrite E. split; reflexivity.
Qed.

Lemma second_run_on_file_witness :
  fst (main Windows (snd (main Windows (plain Script.old_imports)))) = Ok tt
  /\ option_map data
       (disk (snd (main Windows (snd (main Windows (plain Script.old_imports))))))
     = option_map data (disk (snd (main Windows (plain Script.old_imports)))).
Proof.
  apply (second_run_on_file Windows (plain Script.old_imports)
           (File Script.old_imports true true));
    vm_compute; reflexivity.
Defined.

End Newlines.
